(** * Random password generator: the core of [src/App.tsx]

    A shallow embedding of the two handlers of the [App] component that
    carry the logic of the program, [generatePassword] and
    [calculateStrength], together with the few host primitives they call
    (strings, [Uint32Array], [window.crypto.getRandomValues], regular
    expressions reduced to one character class).

    Strings are [string]s of [ascii] characters: every string the component
    builds is made of the four ASCII class literals. *)

From Stdlib Require Import String Ascii List ZArith Lia Bool Arith.
Import ListNotations.

Local Open Scope string_scope.

(** ** Host primitives *)

Module Js.

(** The exceptions the host can throw in the code under study: a property
    read on a missing [window.crypto], and the random source refusing to
    fill an array it cannot serve. *)
Inductive exn : Type :=
| TypeError
| QuotaExceededError.

(** The [name] property of the error object. *)
Definition error_name (e : exn) : string :=
  match e with
  | TypeError => "TypeError"
  | QuotaExceededError => "QuotaExceededError"
  end.

Inductive result (A : Type) : Type :=
| Ok (a : A)
| Throw (e : exn).

Arguments Ok {A} a.
Arguments Throw {A} e.

Definition bind {A B : Type} (m : result A) (k : A -> result B) : result B :=
  match m with
  | Ok a => k a
  | Throw e => Throw e
  end.

(** [s.charAt(pos)]: the one-character string at [pos], the empty string
    when [pos] is out of range. *)
Definition charAt (s : string) (pos : Z) : string :=
  if (pos <? 0)%Z then ""
  else match String.get (Z.to_nat pos) s with
       | Some c => String c ""
       | None => ""
       end.

(** A [Uint32Array] is a list of its elements; a store keeps the value
    modulo 2^32. *)
Definition Uint32Array : Type := list Z.

Definition ToUint32 (v : Z) : Z := (v mod 2 ^ 32)%Z.

(** The values an element of a [Uint32Array] can hold. *)
Definition is_uint32 (v : Z) : Prop := (0 <= v < 2 ^ 32)%Z.

(** [new Uint32Array(n)]: [n] zeros. *)
Definition new_Uint32Array (n : nat) : Uint32Array := repeat 0%Z n.

(** [array[i]].  An index past the end reads [undefined] in JavaScript,
    which [%] turns into [NaN] and [charAt] into position 0; the default
    0 gives the same position. *)
Definition at_index (array : Uint32Array) (i : nat) : Z := nth i array 0%Z.

(** The host window.  [crypto] is [None] when the secure random source is
    missing; otherwise it holds the samples the source hands out, in
    order.  The list stands for a source that serves the call, as the
    browser's does for every length the slider can give. *)
Record Window : Type := { crypto : option (list Z) }.

(** [window.crypto.getRandomValues(array)]: overwrites every element of
    [array] with a sample; throws when [window.crypto] is missing or when
    the source cannot serve the whole array. *)
Definition getRandomValues (w : Window) (array : Uint32Array)
  : result Uint32Array :=
  match crypto w with
  | None => Throw TypeError
  | Some samples =>
      if (List.length array <=? List.length samples)%nat
      then Ok (map ToUint32 (firstn (List.length array) samples))
      else Throw QuotaExceededError
  end.

(** A regular expression that is a single character class, [[a-bc-d]] or
    [[^a-bc-d]]. *)
Record CharClass : Type :=
  { negated : bool;
    ranges : list (ascii * ascii) }.

Definition in_range (c : ascii) (r : ascii * ascii) : bool :=
  ((nat_of_ascii (fst r) <=? nat_of_ascii c)
   && (nat_of_ascii c <=? nat_of_ascii (snd r)))%nat.

Definition class_matches (cls : CharClass) (c : ascii) : bool :=
  xorb (negated cls) (existsb (in_range c) (ranges cls)).

(** [re.test(s)] for an unanchored class: some character matches. *)
Fixpoint test (cls : CharClass) (s : string) : bool :=
  match s with
  | EmptyString => false
  | String c s' => class_matches cls c || test cls s'
  end.

End Js.

Notation "x <- m ;; k" := (Js.bind m (fun x => k))
  (at level 61, m at next level, right associativity).

(** ** The component *)

Module App.

Import Js.

Inductive PasswordStrength : Type :=
| weak
| medium
| strong
| very_strong.

(** The [useState] cells of the component.  [length] is only ever set from
    the range slider ([parseInt] of a value between 6 and 50), so it is a
    natural number. *)
Record State : Type :=
  { password : string;
    length : nat;
    includeUppercase : bool;
    includeLowercase : bool;
    includeNumbers : bool;
    includeSymbols : bool;
    copied : bool;
    strength : PasswordStrength }.

(** The initial values given to [useState]. *)
Definition initial : State :=
  {| password := "";
     length := 16;
     includeUppercase := true;
     includeLowercase := true;
     includeNumbers := true;
     includeSymbols := true;
     copied := false;
     strength := medium |}.

Definition setPassword (p : string) (st : State) : State :=
  {| password := p;
     length := length st;
     includeUppercase := includeUppercase st;
     includeLowercase := includeLowercase st;
     includeNumbers := includeNumbers st;
     includeSymbols := includeSymbols st;
     copied := copied st;
     strength := strength st |}.

Definition setStrength (t : PasswordStrength) (st : State) : State :=
  {| password := password st;
     length := length st;
     includeUppercase := includeUppercase st;
     includeLowercase := includeLowercase st;
     includeNumbers := includeNumbers st;
     includeSymbols := includeSymbols st;
     copied := copied st;
     strength := t |}.

Definition setIncludeLowercase (b : bool) (st : State) : State :=
  {| password := password st;
     length := length st;
     includeUppercase := includeUppercase st;
     includeLowercase := b;
     includeNumbers := includeNumbers st;
     includeSymbols := includeSymbols st;
     copied := copied st;
     strength := strength st |}.

Definition setIncludeNumbers (b : bool) (st : State) : State :=
  {| password := password st;
     length := length st;
     includeUppercase := includeUppercase st;
     includeLowercase := includeLowercase st;
     includeNumbers := b;
     includeSymbols := includeSymbols st;
     copied := copied st;
     strength := strength st |}.

(** The [charset] object of [generatePassword]. *)
Definition charset_lowercase : string := "abcdefghijklmnopqrstuvwxyz".
Definition charset_uppercase : string := "ABCDEFGHIJKLMNOPQRSTUVWXYZ".
Definition charset_numbers : string := "0123456789".
Definition charset_symbols : string := "!@#$%^&*()_+-=[]{}|;:,.<>?".

(** The [characters] accumulator of [generatePassword]: the alphabet the
    password is drawn from. *)
Definition buildAlphabet (st : State) : string :=
  let characters := "" in
  let characters :=
    if includeLowercase st then characters ++ charset_lowercase
    else characters in
  let characters :=
    if includeUppercase st then characters ++ charset_uppercase
    else characters in
  let characters :=
    if includeNumbers st then characters ++ charset_numbers
    else characters in
  let characters :=
    if includeSymbols st then characters ++ charset_symbols
    else characters in
  characters.

(** The [for] loop of [generatePassword], entered at index [i] with
    [remaining] iterations to go. *)
Fixpoint sample_loop (characters : string) (array : Uint32Array)
         (remaining i : nat) (generatedPassword : string) : string :=
  match remaining with
  | O => generatedPassword
  | S remaining' =>
      sample_loop characters array remaining' (S i)
        (generatedPassword
         ++ charAt characters
              (Z.rem (at_index array i)
                     (Z.of_nat (String.length characters))))
  end.

(** The first block of [calculateStrength]: the score. *)
Definition score (pwd : string) : nat :=
  let score := 0 in
  let score := if (8 <? String.length pwd)%nat then S score else score in
  let score := if (12 <? String.length pwd)%nat then S score else score in
  let score :=
    if test {| negated := false; ranges := [("A", "Z")%char] |} pwd
    then S score else score in
  let score :=
    if test {| negated := false; ranges := [("0", "9")%char] |} pwd
    then S score else score in
  let score :=
    if test {| negated := true;
               ranges := [("A", "Z"); ("a", "z"); ("0", "9")]%char |} pwd
    then S score else score in
  score.

Definition calculateStrength (pwd : string) (st : State) : State :=
  let score := score pwd in
  if (score <=? 2)%nat then setStrength weak st
  else if (score =? 3)%nat then setStrength medium st
  else if (score =? 4)%nat then setStrength strong st
  else setStrength very_strong st.

Definition generatePassword (w : Window) (st : State) : result State :=
  let characters := buildAlphabet st in
  if String.eqb characters "" then Ok (setPassword "" st)
  else
    let array := new_Uint32Array (length st) in
    array <- getRandomValues w array ;;
    let generatedPassword :=
      sample_loop characters array (length st) 0 "" in
    Ok (calculateStrength generatedPassword
          (setPassword generatedPassword st)).

(** The tier [calculateStrength] stores for a password. *)
Definition classify (pwd : string) : PasswordStrength :=
  strength (calculateStrength pwd initial).

End App.

(** ** The specification's vocabulary *)

Module Spec.

Import App.

(** The order of the tiers: weak < medium < strong < very-strong. *)
Definition tier_rank (t : PasswordStrength) : nat :=
  match t with
  | weak => 0
  | medium => 1
  | strong => 2
  | very_strong => 3
  end.

Definition tier_le (a b : PasswordStrength) : Prop :=
  tier_rank a <= tier_rank b.

(** Membership of a character in a string, and the three kinds of
    character the scoring talks about, each given by its list of
    members. *)
Definition occurs_in (s : string) (c : ascii) : bool :=
  existsb (Ascii.eqb c) (list_ascii_of_string s).

Definition uppercase_letter : ascii -> bool :=
  occurs_in "ABCDEFGHIJKLMNOPQRSTUVWXYZ".

Definition lowercase_letter : ascii -> bool :=
  occurs_in "abcdefghijklmnopqrstuvwxyz".

Definition digit : ascii -> bool :=
  occurs_in "0123456789".

Definition outside_alnum (c : ascii) : bool :=
  negb (uppercase_letter c || lowercase_letter c || digit c).

(** "contains at least one character such that [p]". *)
Definition contains (p : ascii -> bool) (s : string) : bool :=
  existsb p (list_ascii_of_string s).

Definition point (b : bool) : nat := if b then 1 else 0.

(** The score as the sum of five independent predicates on the whole
    string. *)
Definition predicate_score (pwd : string) : nat :=
  point (8 <? String.length pwd)%nat
  + point (12 <? String.length pwd)%nat
  + point (contains uppercase_letter pwd)
  + point (contains digit pwd)
  + point (contains outside_alnum pwd).

(** The mapping from score to tier. *)
Inductive tier_of_score : nat -> PasswordStrength -> Prop :=
| tier_weak : forall s, s <= 2 -> tier_of_score s weak
| tier_medium : tier_of_score 3 medium
| tier_strong : tier_of_score 4 strong
| tier_very_strong : forall s, 5 <= s -> tier_of_score s very_strong.

(** The alphabet as the concatenation of the class strings of the enabled
    categories, in the order lowercase, uppercase, numbers, symbols. *)
Definition enabled_classes (st : State) : list string :=
  map snd
    (filter fst
       [ (includeLowercase st, charset_lowercase);
         (includeUppercase st, charset_uppercase);
         (includeNumbers st, charset_numbers);
         (includeSymbols st, charset_symbols) ]).

Definition alphabet_of_classes (st : State) : string :=
  fold_right String.append "" (enabled_classes st).

(** At least one category is enabled. *)
Definition some_category (st : State) : bool :=
  includeLowercase st || includeUppercase st
  || includeNumbers st || includeSymbols st.

(** No category is enabled. *)
Definition no_category (st : State) : Prop :=
  includeLowercase st = false /\ includeUppercase st = false
  /\ includeNumbers st = false /\ includeSymbols st = false.

End Spec.

(** ** Sample data *)

Module Sample.

Import Js App.

(** Digits and lowercase letters only, three characters. *)
Definition digits_and_lowercase : State :=
  {| password := "";
     length := 3;
     includeUppercase := false;
     includeLowercase := true;
     includeNumbers := true;
     includeSymbols := false;
     copied := false;
     strength := medium |}.

(** Every category switched off, after a strong password was shown. *)
Definition all_off : State :=
  {| password := "Xk3!pQ9#rT2$z";
     length := 13;
     includeUppercase := false;
     includeLowercase := false;
     includeNumbers := false;
     includeSymbols := false;
     copied := false;
     strength := very_strong |}.

Definition secure_window : Window :=
  {| crypto := Some [5; 4294967295; 36; 77]%Z |}.

Definition window_without_crypto : Window :=
  {| crypto := None |}.

End Sample.

(** ** The rest of the component: setters, handlers, rendering *)

Module Component.

Import Js App.

Definition setLength (n : nat) (st : State) : State :=
  {| password := password st;
     length := n;
     includeUppercase := includeUppercase st;
     includeLowercase := includeLowercase st;
     includeNumbers := includeNumbers st;
     includeSymbols := includeSymbols st;
     copied := copied st;
     strength := strength st |}.

Definition setIncludeUppercase (b : bool) (st : State) : State :=
  {| password := password st;
     length := length st;
     includeUppercase := b;
     includeLowercase := includeLowercase st;
     includeNumbers := includeNumbers st;
     includeSymbols := includeSymbols st;
     copied := copied st;
     strength := strength st |}.

Definition setIncludeSymbols (b : bool) (st : State) : State :=
  {| password := password st;
     length := length st;
     includeUppercase := includeUppercase st;
     includeLowercase := includeLowercase st;
     includeNumbers := includeNumbers st;
     includeSymbols := b;
     copied := copied st;
     strength := strength st |}.

Definition setCopied (b : bool) (st : State) : State :=
  {| password := password st;
     length := length st;
     includeUppercase := includeUppercase st;
     includeLowercase := includeLowercase st;
     includeNumbers := includeNumbers st;
     includeSymbols := includeSymbols st;
     copied := b;
     strength := strength st |}.

(** A timer registered with [setTimeout]: the callback and its delay in
    milliseconds. *)
Record Timer : Type :=
  { callback : State -> State;
    delay : nat }.

(** What the handlers touch outside the component: the text on the system
    clipboard, the timers that have not fired yet (oldest first) and the
    messages written with [console.error]. *)
Record Host : Type :=
  { clipboard : string;
    timers : list Timer;
    console : list string }.

(** [navigator.clipboard.writeText(text)]: the promise resolves with the
    text on the clipboard when the write is granted, and rejects (or the
    access to a missing [navigator.clipboard] throws) otherwise. *)
Definition writeText (granted : bool) (text : string) (h : Host)
  : option Host :=
  if granted
  then Some {| clipboard := text; timers := timers h; console := console h |}
  else None.

Definition setTimeout (f : State -> State) (ms : nat) (h : Host) : Host :=
  {| clipboard := clipboard h;
     timers := timers h ++ [ {| callback := f; delay := ms |} ];
     console := console h |}.

Definition console_error (msg : string) (h : Host) : Host :=
  {| clipboard := clipboard h;
     timers := timers h;
     console := console h ++ [msg] |}.

(** [copyToClipboard].  [!password] holds for the empty string only; the
    [try] block catches whatever [writeText] throws. *)
Definition copyToClipboard (granted : bool) (h : Host) (st : State)
  : Host * State :=
  if String.eqb (password st) "" then (h, st)
  else
    match writeText granted (password st) h with
    | Some h' => (setTimeout (fun s => setCopied false s) 2000 h',
                  setCopied true st)
    | None => (console_error "Failed to copy!" h, st)
    end.

(** The [Checkbox] component: a click calls [onChange(!checked)]. *)
Definition Checkbox (checked : bool) (onChange : bool -> State -> State)
  : State -> State :=
  onChange (negb checked).

(** The four check boxes of the settings grid. *)
Inductive Box : Type :=
| Uppercase
| Lowercase
| Numbers
| Symbols.

Definition clickBox (b : Box) (st : State) : State :=
  match b with
  | Uppercase => Checkbox (includeUppercase st) setIncludeUppercase st
  | Lowercase => Checkbox (includeLowercase st) setIncludeLowercase st
  | Numbers => Checkbox (includeNumbers st) setIncludeNumbers st
  | Symbols => Checkbox (includeSymbols st) setIncludeSymbols st
  end.

(** The value a range input with [min="6"] and [max="50"] reports when the
    user asks for [v]: the browser keeps it between the two bounds. *)
Definition range_value (v : nat) : nat := Nat.max 6 (Nat.min 50 v).

(** [onChange] of the slider: [setLength(parseInt(e.target.value))]. *)
Definition changeLength (v : nat) (st : State) : State :=
  setLength (range_value v) st.

(** The strength meter: [levels], and [isActive] for the segment at
    [idx]. *)
Definition levels (t : PasswordStrength) : nat :=
  match t with
  | weak => 1
  | medium => 2
  | strong => 3
  | very_strong => 4
  end.

Definition isActive (t : PasswordStrength) (idx : nat) : bool :=
  (idx <? levels t)%nat.

(** One flag per segment, from the [map] over the four tier names. *)
Definition meter (st : State) : list (PasswordStrength * bool) :=
  map (fun s_idx => (fst s_idx, isActive (strength st) (snd s_idx)))
      (combine [weak; medium; strong; very_strong] (seq 0 4)).

(** The component and its surroundings. *)
Record World : Type :=
  { app : State;
    host : Host }.

(** What can happen to a mounted component.  A click on the refresh button
    (and the effect run on mount) calls [generatePassword] against the
    window of that moment; a click on the copy button finds the clipboard
    write granted or not. *)
Inductive Event : Type :=
| ClickGenerate (w : Window)
| ClickCopy (granted : bool)
| ChangeLength (v : nat)
| ClickBox (b : Box)
| TimerFires.

(** One event.  An exception out of a handler leaves the state as it
    was. *)
Definition handle (e : Event) (wd : World) : World :=
  match e with
  | ClickGenerate w =>
      match generatePassword w (app wd) with
      | Ok st' => {| app := st'; host := host wd |}
      | Throw _ => wd
      end
  | ClickCopy granted =>
      let (h', st') := copyToClipboard granted (host wd) (app wd) in
      {| app := st'; host := h' |}
  | ChangeLength v => {| app := changeLength v (app wd); host := host wd |}
  | ClickBox b => {| app := clickBox b (app wd); host := host wd |}
  | TimerFires =>
      match timers (host wd) with
      | [] => wd
      | t :: ts =>
          {| app := callback t (app wd);
             host := {| clipboard := clipboard (host wd);
                        timers := ts;
                        console := console (host wd) |} |}
      end
  end.

(** The first render, before the mount effect has run. *)
Definition first_render (clip : string) : World :=
  {| app := initial;
     host := {| clipboard := clip; timers := []; console := [] |} |}.

Definition run (es : list Event) (wd : World) : World :=
  fold_left (fun w e => handle e w) es wd.

(** The worlds a user can bring the component to. *)
Inductive reachable : World -> Prop :=
| reach_first : forall clip, reachable (first_render clip)
| reach_handle : forall e wd, reachable wd -> reachable (handle e wd).

End Component.

(** ** Auxiliary functions for the proofs *)

Module Aux.

(** The first position of [c] in [s] ([String.length s] when absent). *)
Fixpoint index_of (c : ascii) (s : string) : nat :=
  match s with
  | EmptyString => 0
  | String d s' => if Ascii.eqb c d then 0 else S (index_of c s')
  end.

(** No character occurs twice. *)
Fixpoint distinct (l : list ascii) : bool :=
  match l with
  | [] => true
  | c :: l' => negb (existsb (Ascii.eqb c) l') && distinct l'
  end.

(** The four classes together. *)
Definition full_alphabet : string :=
  (App.charset_lowercase ++ App.charset_uppercase
   ++ App.charset_numbers ++ App.charset_symbols)%string.

(** The password [generatePassword] builds from the first [length] of
    [samples]. *)
Definition sampled (st : App.State) (samples : list Z) : string :=
  App.sample_loop (App.buildAlphabet st)
    (map Js.ToUint32 (firstn (App.length st) samples)) (App.length st) 0 "".

(** What every pending timer is: the reset of the copied flag, two seconds
    after a copy. *)
Definition resets_copied (t : Component.Timer) : Prop :=
  Component.delay t = 2000
  /\ forall s, Component.callback t s = Component.setCopied false s.

(** A password the generator can have produced: 6 to 50 characters of the
    four classes. *)
Definition well_formed (pwd : string) : Prop :=
  6 <= String.length pwd <= 50
  /\ forall c, In c (list_ascii_of_string pwd) ->
               In c (list_ascii_of_string full_alphabet).

(** What holds of the component whatever the user does. *)
Definition invariant (wd : Component.World) : Prop :=
  (6 <= App.length (Component.app wd) <= 50)
  /\ (App.password (Component.app wd) = ""%string
      \/ (App.strength (Component.app wd)
          = App.classify (App.password (Component.app wd))
          /\ well_formed (App.password (Component.app wd))))
  /\ (App.copied (Component.app wd) = true ->
      Component.timers (Component.host wd) <> [])
  /\ Forall resets_copied (Component.timers (Component.host wd)).

(** The [checked] property handed to the check box, and the class the box
    stands for. *)
Definition checked (b : Component.Box) (st : App.State) : bool :=
  match b with
  | Component.Uppercase => App.includeUppercase st
  | Component.Lowercase => App.includeLowercase st
  | Component.Numbers => App.includeNumbers st
  | Component.Symbols => App.includeSymbols st
  end.

Definition class_of (b : Component.Box) : string :=
  match b with
  | Component.Uppercase => App.charset_uppercase
  | Component.Lowercase => App.charset_lowercase
  | Component.Numbers => App.charset_numbers
  | Component.Symbols => App.charset_symbols
  end.

(** The world after every pending timer has fired. *)
Definition settle (wd : Component.World) : Component.World :=
  Component.run
    (repeat Component.TimerFires
       (List.length (Component.timers (Component.host wd))))
    wd.

End Aux.

(** ** Strings *)

Section Strings.

Lemma length_append (s t : string) :
  String.length (s ++ t) = String.length s + String.length t.
Proof.
  induction s as [|c s IH]; simpl; [reflexivity | now rewrite IH].
Qed.

Lemma append_empty_r (s : string) : s ++ "" = s.
Proof.
  induction s as [|c s IH]; simpl; [reflexivity | now rewrite IH].
Qed.

Lemma append_assoc (s t u : string) : (s ++ t) ++ u = s ++ (t ++ u).
Proof.
  induction s as [|c s IH]; simpl; [reflexivity | now rewrite IH].
Qed.

Lemma get_some_lt (s : string) (n : nat) :
  n < String.length s -> exists c, String.get n s = Some c.
Proof.
  revert n; induction s as [|c s IH]; intros n Hn; simpl in *; [lia|].
  destruct n as [|n]; [now exists c | apply IH; lia].
Qed.

Lemma get_in (s : string) (n : nat) (c : ascii) :
  String.get n s = Some c -> In c (list_ascii_of_string s).
Proof.
  revert n; induction s as [|d s IH]; intros n H; simpl in *.
  - discriminate.
  - destruct n as [|n]; [left; congruence | right; eauto].
Qed.

Lemma eqb_empty_false (s : string) :
  s <> "" -> String.eqb s "" = false.
Proof.
  intros H; apply String.eqb_neq; exact H.
Qed.

Lemma length_pos_of_nonempty (s : string) :
  s <> "" -> 0 < String.length s.
Proof.
  destruct s; [congruence | simpl; lia].
Qed.

End Strings.

(** ** The host primitives *)

Section Host.

Import Js.

Lemma ToUint32_range (v : Z) : is_uint32 (ToUint32 v).
Proof.
  unfold is_uint32, ToUint32; apply Z.mod_pos_bound; lia.
Qed.

Lemma ToUint32_id (v : Z) : is_uint32 v -> ToUint32 v = v.
Proof.
  unfold is_uint32, ToUint32; intros H; apply Z.mod_small; exact H.
Qed.

(** A character position computed by [%] from an unsigned element is a
    valid position of a non-empty string, and [rem] is [mod] there. *)
Lemma rem_position (v : Z) (n : nat) :
  (0 <= v)%Z -> 0 < n ->
  Z.rem v (Z.of_nat n) = (v mod Z.of_nat n)%Z
  /\ (0 <= Z.rem v (Z.of_nat n))%Z
  /\ Z.to_nat (Z.rem v (Z.of_nat n)) < n.
Proof.
  intros Hv Hn.
  assert (E : Z.rem v (Z.of_nat n) = (v mod Z.of_nat n)%Z)
    by (apply Z.rem_mod_nonneg; lia).
  assert (B : (0 <= v mod Z.of_nat n < Z.of_nat n)%Z)
    by (apply Z.mod_pos_bound; lia).
  rewrite E; repeat split; lia.
Qed.

Lemma charAt_position (s : string) (pos : Z) :
  (0 <= pos)%Z -> Z.to_nat pos < String.length s ->
  exists c, String.get (Z.to_nat pos) s = Some c
            /\ charAt s pos = String c "".
Proof.
  intros Hp Hl; destruct (get_some_lt s _ Hl) as [c Hc].
  exists c; split; [exact Hc|].
  unfold charAt; rewrite Hc.
  destruct (pos <? 0)%Z eqn:E; [apply Z.ltb_lt in E; lia | reflexivity].
Qed.

Lemma new_Uint32Array_length (n : nat) :
  List.length (new_Uint32Array n) = n.
Proof.
  unfold new_Uint32Array; apply repeat_length.
Qed.

(** With enough samples at hand the source fills the fresh array. *)
Lemma getRandomValues_ok (w : Window) (samples : list Z) (n : nat) :
  crypto w = Some samples -> n <= List.length samples ->
  getRandomValues w (new_Uint32Array n)
  = Ok (map ToUint32 (firstn n samples)).
Proof.
  intros Hc Hn; unfold getRandomValues.
  rewrite Hc, new_Uint32Array_length.
  destruct (n <=? List.length samples)%nat eqn:E; [reflexivity|].
  apply Nat.leb_gt in E; lia.
Qed.

Lemma getRandomValues_missing (w : Window) (array : Uint32Array) :
  crypto w = None -> getRandomValues w array = Throw TypeError.
Proof.
  intros Hc; unfold getRandomValues; now rewrite Hc.
Qed.

Lemma at_index_filled (samples : list Z) (n i : nat) (r : Z) :
  i < n -> nth_error samples i = Some r ->
  at_index (map ToUint32 (firstn n samples)) i = ToUint32 r.
Proof.
  intros Hi Hr; unfold at_index.
  apply nth_error_nth.
  rewrite nth_error_map, nth_error_firstn.
  destruct (i <? n)%nat eqn:E; [now rewrite Hr|].
  apply Nat.ltb_ge in E; lia.
Qed.

Lemma at_index_uint32 (l : list Z) (i : nat) :
  is_uint32 (at_index (map ToUint32 l) i).
Proof.
  unfold at_index.
  destruct (Nat.lt_ge_cases i (List.length (map ToUint32 l))) as [H|H].
  - rewrite (nth_indep _ 0%Z (ToUint32 0) H), map_nth.
    apply ToUint32_range.
  - rewrite nth_overflow by exact H. unfold is_uint32; lia.
Qed.

End Host.

(** ** The alphabet *)

Section Alphabet.

Import Js App Spec.

Lemma buildAlphabet_classes (st : State) :
  buildAlphabet st = alphabet_of_classes st.
Proof.
  unfold buildAlphabet, alphabet_of_classes, enabled_classes.
  destruct (includeLowercase st), (includeUppercase st),
    (includeNumbers st), (includeSymbols st); reflexivity.
Qed.

Lemma buildAlphabet_empty (st : State) :
  no_category st -> buildAlphabet st = "".
Proof.
  intros (Hl & Hu & Hn & Hs); unfold buildAlphabet.
  now rewrite Hl, Hu, Hn, Hs.
Qed.

Lemma buildAlphabet_nonempty (st : State) :
  some_category st = true -> buildAlphabet st <> "".
Proof.
  unfold some_category, buildAlphabet.
  destruct (includeLowercase st), (includeUppercase st),
    (includeNumbers st), (includeSymbols st);
    simpl; intros H; discriminate.
Qed.

(** C4.  The alphabet is the concatenation of the class strings of the
    enabled categories in the fixed order lowercase, uppercase, numbers,
    symbols.  It depends on the four booleans only, so two states that
    agree on them have the same alphabet, and setting the lowercase and
    the numbers boxes in either order gives the same alphabet; with
    exactly lowercase and numbers enabled it is the lowercase string
    followed by the numbers string. *)
Theorem buildAlphabet_fixed_order :
  (forall st, buildAlphabet st = alphabet_of_classes st)
  /\ (forall st,
         buildAlphabet st
         = (if includeLowercase st then charset_lowercase else "")
           ++ (if includeUppercase st then charset_uppercase else "")
           ++ (if includeNumbers st then charset_numbers else "")
           ++ (if includeSymbols st then charset_symbols else ""))
  /\ (forall st a b,
         buildAlphabet (setIncludeNumbers b (setIncludeLowercase a st))
         = buildAlphabet (setIncludeLowercase a (setIncludeNumbers b st)))
  /\ (forall pw pw' n n' cp cp' t t',
         buildAlphabet
           {| password := pw; length := n; includeUppercase := false;
              includeLowercase := true; includeNumbers := true;
              includeSymbols := false; copied := cp; strength := t |}
         = charset_lowercase ++ charset_numbers
         /\ buildAlphabet
              (setIncludeLowercase true
                 (setIncludeNumbers true
                    {| password := pw'; length := n';
                       includeUppercase := false;
                       includeLowercase := false;
                       includeNumbers := false;
                       includeSymbols := false;
                       copied := cp'; strength := t' |}))
            = charset_lowercase ++ charset_numbers).
Proof.
  split; [exact buildAlphabet_classes|].
  split.
  { intros st; unfold buildAlphabet.
    destruct (includeLowercase st), (includeUppercase st),
      (includeNumbers st), (includeSymbols st); reflexivity. }
  split; [reflexivity|].
  intros; split; reflexivity.
Qed.

(** C6, as the code has it.  The symbols class is the literal
    [!@#$%^&*()_+-=[]{}|;:,.<>?], which has 26 characters, all distinct
    and none of them a letter or a digit. *)
Theorem charset_symbols_26 :
  charset_symbols = "!@#$%^&*()_+-=[]{}|;:,.<>?"
  /\ String.length charset_symbols = 26
  /\ NoDup (list_ascii_of_string charset_symbols)
  /\ forallb outside_alnum (list_ascii_of_string charset_symbols) = true.
Proof.
  split; [reflexivity|]. split; [reflexivity|]. split; [|reflexivity].
  unfold charset_symbols; simpl.
  repeat (constructor;
          [simpl; intros H;
           repeat (destruct H as [H|H]; [discriminate H|]); exact H|]).
  constructor.
Qed.

(** C6, refuted as stated: the symbols class does not have 27
    characters. *)
Lemma charset_symbols_not_27 :
  ~ (charset_symbols = "!@#$%^&*()_+-=[]{}|;:,.<>?"
     /\ String.length charset_symbols = 27).
Proof.
  intros [_ H]; vm_compute in H; discriminate H.
Qed.

End Alphabet.

(** ** The sampling loop *)

Section Loop.

Import Js App Spec.

Variable characters : string.
Hypothesis characters_nonempty : characters <> "".

Lemma sample_loop_acc (array : Uint32Array) (n i : nat) (acc : string) :
  sample_loop characters array n i acc
  = acc ++ sample_loop characters array n i "".
Proof.
  revert i acc; induction n as [|n IH]; intros i acc; simpl.
  - now rewrite append_empty_r.
  - rewrite IH, (IH _ (charAt _ _)), append_assoc; reflexivity.
Qed.

(** One turn of the loop on an array of stored samples appends exactly
    one character of the alphabet. *)
Lemma sample_loop_step (l : list Z) (n i : nat) :
  exists c,
    String.get
      (Z.to_nat (at_index (map ToUint32 l) i
                 mod Z.of_nat (String.length characters)))
      characters
    = Some c
    /\ sample_loop characters (map ToUint32 l) (S n) i ""
       = String c (sample_loop characters (map ToUint32 l) n (S i) "").
Proof.
  destruct (at_index_uint32 l i) as [Hlo _].
  pose proof (length_pos_of_nonempty _ characters_nonempty) as Hlen.
  destruct (rem_position _ _ Hlo Hlen) as (Erem & Hpos & Hlt).
  destruct (charAt_position characters _ Hpos Hlt) as (c & Hget & Hat).
  exists c; split.
  - rewrite <- Erem; exact Hget.
  - simpl; rewrite sample_loop_acc, Hat; reflexivity.
Qed.

Lemma sample_loop_length (l : list Z) (n i : nat) :
  String.length (sample_loop characters (map ToUint32 l) n i "") = n.
Proof.
  revert i; induction n as [|n IH]; intros i; [reflexivity|].
  destruct (sample_loop_step l n i) as (c & _ & E).
  rewrite E; simpl; now rewrite IH.
Qed.

Lemma sample_loop_get (l : list Z) (n i j : nat) :
  j < n ->
  exists c,
    String.get j (sample_loop characters (map ToUint32 l) n i "") = Some c
    /\ String.get
         (Z.to_nat (at_index (map ToUint32 l) (i + j)
                    mod Z.of_nat (String.length characters)))
         characters
       = Some c.
Proof.
  revert i j; induction n as [|n IH]; intros i j Hj; [lia|].
  destruct (sample_loop_step l n i) as (c & Hc & E).
  rewrite E; destruct j as [|j]; simpl.
  - exists c; rewrite Nat.add_0_r; auto.
  - replace (i + S j) with (S i + j) by lia. apply IH; lia.
Qed.

Lemma sample_loop_in (l : list Z) (n i : nat) (c : ascii) :
  In c (list_ascii_of_string
          (sample_loop characters (map ToUint32 l) n i "")) ->
  In c (list_ascii_of_string characters).
Proof.
  revert i; induction n as [|n IH]; intros i; [intros []|].
  destruct (sample_loop_step l n i) as (d & Hd & E).
  rewrite E; simpl; intros [<-|H]; [eapply get_in; eauto | eauto].
Qed.

End Loop.

(** ** The generator *)

Section Generator.

Import Js App Spec.

Lemma calculateStrength_frame (pwd : string) (st : State) :
  calculateStrength pwd st = setStrength (classify pwd) st.
Proof.
  unfold classify, calculateStrength.
  destruct (score pwd <=? 2)%nat; [reflexivity|].
  destruct (score pwd =? 3)%nat; [reflexivity|].
  destruct (score pwd =? 4)%nat; reflexivity.
Qed.

(** The password the loop builds from the samples the source hands out. *)
Lemma generatePassword_sampled (w : Window) (st : State) (samples : list Z) :
  crypto w = Some samples ->
  length st <= List.length samples ->
  some_category st = true ->
  generatePassword w st
  = Ok (setStrength
          (classify
             (sample_loop (buildAlphabet st)
                (map ToUint32 (firstn (length st) samples))
                (length st) 0 ""))
          (setPassword
             (sample_loop (buildAlphabet st)
                (map ToUint32 (firstn (length st) samples))
                (length st) 0 "")
             st)).
Proof.
  intros Hc Hn Hcat; unfold generatePassword.
  rewrite (eqb_empty_false _ (buildAlphabet_nonempty st Hcat)).
  rewrite (getRandomValues_ok w samples _ Hc Hn); simpl.
  apply f_equal, calculateStrength_frame.
Qed.

Lemma generatePassword_no_category (w : Window) (st : State) :
  no_category st -> generatePassword w st = Ok (setPassword "" st).
Proof.
  intros H; unfold generatePassword.
  now rewrite (buildAlphabet_empty st H).
Qed.

(** C1.  With at least one category enabled and as many samples at hand
    as the length asks for, [generatePassword] returns normally, and the
    password it stores has exactly [length] characters, each of them a
    character of the alphabet. *)
Theorem generatePassword_length_alphabet
        (w : Window) (st : State) (samples : list Z) :
  crypto w = Some samples ->
  length st <= List.length samples ->
  some_category st = true ->
  exists st',
    generatePassword w st = Ok st'
    /\ String.length (password st') = length st
    /\ Forall (fun c => In c (list_ascii_of_string (buildAlphabet st)))
              (list_ascii_of_string (password st')).
Proof.
  intros Hc Hn Hcat.
  pose proof (buildAlphabet_nonempty st Hcat) as Hne.
  eexists; split; [apply (generatePassword_sampled w st samples); assumption|].
  cbn [password setStrength setPassword]; split.
  - apply sample_loop_length; exact Hne.
  - apply Forall_forall; intros c; apply sample_loop_in; exact Hne.
Qed.

Lemma generatePassword_length_alphabet_witness :
  exists st',
    generatePassword Sample.secure_window Sample.digits_and_lowercase
    = Ok st'
    /\ String.length (password st') = 3
    /\ Forall (fun c => In c (list_ascii_of_string
                                "abcdefghijklmnopqrstuvwxyz0123456789"))
              (list_ascii_of_string (password st')).
Proof.
  apply (generatePassword_length_alphabet
           Sample.secure_window Sample.digits_and_lowercase
           [5; 4294967295; 36; 77]%Z).
  - reflexivity.
  - simpl; lia.
  - reflexivity.
Defined.

(** C5.  With a non-empty alphabet, the character at position [i] of the
    password is the character of the alphabet at index [r mod
    alphabetLength], where [r] is the [i]-th sample as the [Uint32Array]
    holds it; a sample that is already an unsigned 32-bit value is held
    unchanged.  No sample is skipped or drawn again. *)
Theorem generatePassword_modulo_index
        (w : Window) (st : State) (samples : list Z) :
  crypto w = Some samples ->
  length st <= List.length samples ->
  some_category st = true ->
  exists st',
    generatePassword w st = Ok st'
    /\ forall i s,
         i < length st -> nth_error samples i = Some s ->
         exists c,
           String.get i (password st') = Some c
           /\ String.get
                (Z.to_nat (ToUint32 s
                           mod Z.of_nat (String.length (buildAlphabet st))))
                (buildAlphabet st)
              = Some c
           /\ (is_uint32 s -> ToUint32 s = s).
Proof.
  intros Hc Hn Hcat.
  pose proof (buildAlphabet_nonempty st Hcat) as Hne.
  eexists; split; [apply (generatePassword_sampled w st samples); assumption|].
  cbn [password setStrength setPassword]; intros i s Hi Hs.
  destruct (sample_loop_get _ Hne (firstn (length st) samples)
              (length st) 0 i Hi) as (c & Hget & Hidx).
  exists c; split; [exact Hget|]; split; [|apply ToUint32_id].
  simpl in Hidx; rewrite (at_index_filled samples _ i s Hi Hs) in Hidx.
  exact Hidx.
Qed.

Lemma generatePassword_modulo_index_witness :
  exists st',
    generatePassword Sample.secure_window Sample.digits_and_lowercase
    = Ok st'
    /\ forall i s,
         i < 3 -> nth_error [5; 4294967295; 36; 77]%Z i = Some s ->
         exists c,
           String.get i (password st') = Some c
           /\ String.get
                (Z.to_nat (ToUint32 s mod 36))
                "abcdefghijklmnopqrstuvwxyz0123456789"
              = Some c
           /\ (is_uint32 s -> ToUint32 s = s).
Proof.
  apply (generatePassword_modulo_index
           Sample.secure_window Sample.digits_and_lowercase
           [5; 4294967295; 36; 77]%Z).
  - reflexivity.
  - simpl; lia.
  - reflexivity.
Defined.

End Generator.

(** ** The generator without an alphabet or without a random source *)

Section Failure.

Import Js App Spec.

(** C3.  With the four categories disabled the alphabet is empty, and
    [generatePassword] returns normally with the empty password, whatever
    the host window is, a window without a random source included: it
    throws no exception. *)
Theorem generatePassword_empty_alphabet (w : Window) (st : State) :
  no_category st ->
  buildAlphabet st = ""
  /\ (exists st', generatePassword w st = Ok st' /\ password st' = "")
  /\ (forall e, generatePassword w st <> Throw e).
Proof.
  intros H; split; [apply buildAlphabet_empty; exact H|].
  rewrite (generatePassword_no_category w st H); split.
  - eexists; split; reflexivity.
  - intros e; discriminate.
Qed.

Lemma generatePassword_empty_alphabet_witness :
  buildAlphabet Sample.all_off = ""
  /\ (exists st',
         generatePassword Sample.window_without_crypto Sample.all_off
         = Ok st'
         /\ password st' = "")
  /\ (forall e,
         generatePassword Sample.window_without_crypto Sample.all_off
         <> Throw e).
Proof.
  apply (generatePassword_empty_alphabet
           Sample.window_without_crypto Sample.all_off).
  repeat split; reflexivity.
Defined.

(** C10.  With the four categories disabled [generatePassword] stores the
    empty password and returns before [calculateStrength] runs: every
    other cell of the state, the strength among them, keeps its value, so
    a strength other than the one of the empty password stays on
    display. *)
Theorem generatePassword_keeps_strength (w : Window) (st : State) :
  no_category st ->
  exists st',
    generatePassword w st = Ok st'
    /\ st' = setPassword "" st
    /\ password st' = ""
    /\ strength st' = strength st
    /\ (strength st <> classify "" ->
        st' <> calculateStrength (password st') st').
Proof.
  intros H; exists (setPassword "" st).
  rewrite (generatePassword_no_category w st H).
  repeat split; intros Hne E.
  apply Hne; rewrite calculateStrength_frame in E.
  apply (f_equal strength) in E; exact E.
Qed.

Lemma generatePassword_keeps_strength_witness :
  exists st',
    generatePassword Sample.secure_window Sample.all_off = Ok st'
    /\ st' = setPassword "" Sample.all_off
    /\ password st' = ""
    /\ strength st' = very_strong
    /\ (very_strong <> classify "" ->
        st' <> calculateStrength (password st') st').
Proof.
  apply (generatePassword_keeps_strength
           Sample.secure_window Sample.all_off).
  repeat split; reflexivity.
Defined.

(** C7, as the code has it.  When the secure random source is missing,
    a request that consults it (some category is enabled) fails: the call
    to the source throws, nothing catches the exception, and it reaches the
    caller of [generatePassword] as it was thrown.  The exception is the
    host's [TypeError]; its name is not [RandomnessUnavailable].  The
    request is aborted, no state comes out of it, and no other source of
    randomness stands in: without the secure source the only normal return
    is the empty password of a request with no category enabled, which
    draws no character at all. *)
Theorem generatePassword_source_failure (w : Window) (st : State) :
  crypto w = None ->
  (some_category st = true ->
   exists e,
     getRandomValues w (new_Uint32Array (length st)) = Throw e
     /\ generatePassword w st = Throw e
     /\ e = TypeError
     /\ error_name e = "TypeError"
     /\ forall st', generatePassword w st <> Ok st')
  /\ (forall st',
         generatePassword w st = Ok st' ->
         no_category st /\ password st' = "").
Proof.
  intros Hc.
  assert (Hfail : some_category st = true ->
                  generatePassword w st = Throw TypeError).
  { intros Hcat; unfold generatePassword.
    rewrite (eqb_empty_false _ (buildAlphabet_nonempty st Hcat)).
    now rewrite (getRandomValues_missing w _ Hc). }
  split.
  - intros Hcat; exists TypeError.
    rewrite (Hfail Hcat), (getRandomValues_missing w _ Hc).
    repeat split; intros st'; discriminate.
  - intros st' H.
    destruct (some_category st) eqn:Hcat;
      [rewrite (Hfail eq_refl) in H; discriminate H|].
    assert (Hno : no_category st).
    { unfold some_category in Hcat; unfold no_category.
      destruct (includeLowercase st), (includeUppercase st),
        (includeNumbers st), (includeSymbols st);
        try discriminate Hcat; repeat split. }
    rewrite (generatePassword_no_category w st Hno) in H.
    injection H as <-; split; [exact Hno | reflexivity].
Qed.

Lemma generatePassword_source_failure_witness :
  exists e,
    getRandomValues Sample.window_without_crypto
      (new_Uint32Array (length Sample.digits_and_lowercase))
    = Throw e
    /\ generatePassword Sample.window_without_crypto
         Sample.digits_and_lowercase
       = Throw e
    /\ e = TypeError
    /\ error_name e = "TypeError"
    /\ forall st',
         generatePassword Sample.window_without_crypto
           Sample.digits_and_lowercase
         <> Ok st'.
Proof.
  apply (proj1 (generatePassword_source_failure
                  Sample.window_without_crypto
                  Sample.digits_and_lowercase eq_refl)).
  reflexivity.
Defined.

(** C7, refuted as stated: with the lowercase and numbers boxes on and no
    random source, [generatePassword] fails, but the error it fails with
    is a [TypeError], not an error named [RandomnessUnavailable]. *)
Lemma generatePassword_error_not_RandomnessUnavailable :
  crypto Sample.window_without_crypto = None
  /\ some_category Sample.digits_and_lowercase = true
  /\ generatePassword Sample.window_without_crypto
       Sample.digits_and_lowercase
     = Throw TypeError
  /\ ~ (exists e,
           generatePassword Sample.window_without_crypto
             Sample.digits_and_lowercase
           = Throw e
           /\ error_name e = "RandomnessUnavailable").
Proof.
  split; [reflexivity|]; split; [reflexivity|]; split; [reflexivity|].
  intros (e & He & Hn).
  assert (E : e = TypeError) by (vm_compute in He; congruence).
  subst e; discriminate Hn.
Qed.

End Failure.

(** ** The classifier *)

Section Classifier.

Import Js App Spec.

Ltac each_ascii c := destruct c as [[] [] [] [] [] [] [] []]; reflexivity.

Lemma class_uppercase (c : ascii) :
  class_matches {| negated := false; ranges := [("A", "Z")%char] |} c
  = uppercase_letter c.
Proof. each_ascii c. Qed.

Lemma class_digit (c : ascii) :
  class_matches {| negated := false; ranges := [("0", "9")%char] |} c
  = digit c.
Proof. each_ascii c. Qed.

Lemma class_outside_alnum (c : ascii) :
  class_matches
    {| negated := true;
       ranges := [("A", "Z"); ("a", "z"); ("0", "9")]%char |} c
  = outside_alnum c.
Proof. each_ascii c. Qed.

Lemma test_contains (cls : CharClass) (p : ascii -> bool) (s : string) :
  (forall c, class_matches cls c = p c) -> test cls s = contains p s.
Proof.
  intros H; unfold contains.
  induction s as [|c s IH]; simpl; [reflexivity | now rewrite H, IH].
Qed.

Lemma score_predicate_score (pwd : string) :
  score pwd = predicate_score pwd.
Proof.
  unfold score, predicate_score.
  rewrite (test_contains _ _ pwd class_uppercase),
    (test_contains _ _ pwd class_digit),
    (test_contains _ _ pwd class_outside_alnum).
  destruct (8 <? String.length pwd)%nat, (12 <? String.length pwd)%nat,
    (contains uppercase_letter pwd), (contains digit pwd),
    (contains outside_alnum pwd); reflexivity.
Qed.

Lemma predicate_score_le_5 (pwd : string) : predicate_score pwd <= 5.
Proof.
  unfold predicate_score.
  destruct (8 <? String.length pwd)%nat, (12 <? String.length pwd)%nat,
    (contains uppercase_letter pwd), (contains digit pwd),
    (contains outside_alnum pwd); simpl; lia.
Qed.

(** The tier as a function of the score alone. *)
Lemma classify_of_score (pwd : string) :
  classify pwd
  = match predicate_score pwd with
    | 0 | 1 | 2 => weak
    | 3 => medium
    | 4 => strong
    | _ => very_strong
    end.
Proof.
  unfold classify, calculateStrength.
  rewrite score_predicate_score.
  destruct (predicate_score pwd) as [|[|[|[|[|n]]]]]; reflexivity.
Qed.

Lemma tier_of_score_functional (s : nat) (t t' : PasswordStrength) :
  tier_of_score s t -> tier_of_score s t' -> t = t'.
Proof.
  intros H H'; inversion H; subst; inversion H'; subst;
    try reflexivity; lia.
Qed.

(** C2.  [calculateStrength] computes the score that adds one point for
    each of the five predicates on the whole string, and stores the tier
    that the mapping (at most 2: weak, 3: medium, 4: strong, at least 5:
    very-strong) gives for it, whatever the state it is called in; the
    four worked strings score 0, 2, 3 and 5 and come out weak, weak,
    medium and very-strong. *)
Theorem calculateStrength_reference :
  (forall pwd,
      score pwd = predicate_score pwd
      /\ tier_of_score (predicate_score pwd) (classify pwd)
      /\ forall st,
          calculateStrength pwd st = setStrength (classify pwd) st)
  /\ (predicate_score "abcdefg" = 0 /\ classify "abcdefg" = weak)
  /\ (predicate_score "Abcdefghi" = 2 /\ classify "Abcdefghi" = weak)
  /\ (predicate_score "Abcdefghi1" = 3 /\ classify "Abcdefghi1" = medium)
  /\ (predicate_score "Abcdefghijkl1!" = 5
      /\ classify "Abcdefghijkl1!" = very_strong).
Proof.
  split; [|repeat split; reflexivity].
  intros pwd; split; [apply score_predicate_score|].
  split; [|intros st; apply calculateStrength_frame].
  rewrite classify_of_score.
  pose proof (predicate_score_le_5 pwd) as H5.
  destruct (predicate_score pwd) as [|[|[|[|[|n]]]]];
    try (apply tier_weak; lia);
    [apply tier_medium | apply tier_strong | apply tier_very_strong; lia].
Qed.

(** C8.  Two passwords of the same length that agree on containing an
    uppercase letter, on containing a digit and on containing a character
    outside [A-Za-z0-9] get the same score and the same tier: what
    lowercase letters they hold plays no part. *)
Theorem classify_ignores_lowercase (p q : string) :
  String.length p = String.length q ->
  contains uppercase_letter p = contains uppercase_letter q ->
  contains digit p = contains digit q ->
  contains outside_alnum p = contains outside_alnum q ->
  score p = score q
  /\ classify p = classify q
  /\ forall st,
      strength (calculateStrength p st) = strength (calculateStrength q st).
Proof.
  intros Hlen Hup Hdig Hout.
  assert (Hs : predicate_score p = predicate_score q)
    by (unfold predicate_score; now rewrite Hlen, Hup, Hdig, Hout).
  assert (Hc : classify p = classify q)
    by (now rewrite !classify_of_score, Hs).
  split; [now rewrite !score_predicate_score|].
  split; [exact Hc|].
  intros st; now rewrite !calculateStrength_frame, Hc.
Qed.

Lemma classify_ignores_lowercase_witness :
  score "abcdefghi1" = score "1111111111"
  /\ classify "abcdefghi1" = classify "1111111111"
  /\ forall st,
      strength (calculateStrength "abcdefghi1" st)
      = strength (calculateStrength "1111111111" st).
Proof.
  apply (classify_ignores_lowercase "abcdefghi1" "1111111111");
    reflexivity.
Defined.

(** C9.  The tier depends on the password only: equal passwords get equal
    tiers, in whatever states [calculateStrength] is called.  And the tier
    does not decrease when the score does not: if the score of [p] is at
    least the score of [q], the tier of [p] is at least the tier of [q]
    in the order weak < medium < strong < very-strong. *)
Theorem classify_pure_monotone (p q : string) :
  (forall st st',
      p = q ->
      strength (calculateStrength p st) = strength (calculateStrength q st'))
  /\ (predicate_score q <= predicate_score p ->
      tier_le (classify q) (classify p)).
Proof.
  split.
  - intros st st' ->; now rewrite !calculateStrength_frame.
  - rewrite !classify_of_score; unfold tier_le.
    destruct (predicate_score p) as [|[|[|[|[|n]]]]];
      destruct (predicate_score q) as [|[|[|[|[|m]]]]];
      simpl; lia.
Qed.

Lemma classify_pure_monotone_witness :
  strength (calculateStrength "Abcdefghi1" Sample.all_off)
  = strength (calculateStrength "Abcdefghi1" App.initial)
  /\ tier_le (classify "abcdefg") (classify "Abcdefghi1").
Proof.
  split.
  - apply (proj1 (classify_pure_monotone "Abcdefghi1" "Abcdefghi1")).
    reflexivity.
  - apply (proj2 (classify_pure_monotone "Abcdefghi1" "abcdefg")).
    vm_compute; lia.
Defined.

End Classifier.


(** ** More on the alphabet *)

Section AlphabetFacts.

Import Js App Spec Aux.

Lemma distinct_NoDup (l : list ascii) : distinct l = true -> NoDup l.
Proof.
  induction l as [|c l IH]; simpl; intros H; [constructor|].
  apply andb_true_iff in H; destruct H as [Hc Hl].
  constructor; [|auto].
  intros Hin; apply negb_true_iff in Hc.
  assert (E : existsb (Ascii.eqb c) l = true)
    by (apply existsb_exists; exists c; split; [exact Hin|apply Ascii.eqb_refl]).
  congruence.
Qed.

Lemma contains_false_of_forall (p : ascii -> bool) (s : string) :
  (forall c, In c (list_ascii_of_string s) -> p c = false) ->
  contains p s = false.
Proof.
  unfold contains; induction s as [|c s IH]; simpl; intros H; [reflexivity|].
  rewrite (H c (or_introl eq_refl)), IH; auto.
Qed.

Lemma forallb_negb_in (p : ascii -> bool) (l : list ascii) (c : ascii) :
  forallb (fun d => negb (p d)) l = true -> In c l -> p c = false.
Proof.
  intros H Hin; rewrite forallb_forall in H.
  apply negb_true_iff, H, Hin.
Qed.

(** The alphabet never holds a character twice, and its length is the sum
    of the sizes of the enabled classes (26, 26, 10 and 26), 88 at most. *)
Theorem buildAlphabet_distinct_size (st : State) :
  NoDup (list_ascii_of_string (buildAlphabet st))
  /\ String.length (buildAlphabet st)
     = (if includeLowercase st then 26 else 0)
       + (if includeUppercase st then 26 else 0)
       + (if includeNumbers st then 10 else 0)
       + (if includeSymbols st then 26 else 0)
  /\ String.length (buildAlphabet st) <= 88.
Proof.
  unfold buildAlphabet.
  destruct (includeLowercase st), (includeUppercase st),
    (includeNumbers st), (includeSymbols st);
    (split; [apply distinct_NoDup; vm_compute; reflexivity
            | split; [vm_compute; reflexivity | vm_compute; lia]]).
Qed.

(** A character of a class that is switched off is not in the alphabet. *)
Lemma buildAlphabet_excludes (st : State) (c : ascii) :
  In c (list_ascii_of_string (buildAlphabet st)) ->
  (includeUppercase st = false -> uppercase_letter c = false)
  /\ (includeLowercase st = false -> lowercase_letter c = false)
  /\ (includeNumbers st = false -> digit c = false)
  /\ (includeSymbols st = false -> outside_alnum c = false).
Proof.
  intros Hin; unfold buildAlphabet in Hin.
  destruct (includeLowercase st), (includeUppercase st),
    (includeNumbers st), (includeSymbols st);
    repeat split; intros E; try discriminate E;
    (eapply forallb_negb_in; [|exact Hin]); vm_compute; reflexivity.
Qed.

Lemma buildAlphabet_in_full (st : State) (c : ascii) :
  In c (list_ascii_of_string (buildAlphabet st)) ->
  In c (list_ascii_of_string full_alphabet).
Proof.
  intros Hin.
  assert (H : forallb (fun d => occurs_in full_alphabet d)
                (list_ascii_of_string (buildAlphabet st)) = true).
  { unfold buildAlphabet.
    destruct (includeLowercase st), (includeUppercase st),
      (includeNumbers st), (includeSymbols st); vm_compute; reflexivity. }
  rewrite forallb_forall in H; specialize (H c Hin).
  unfold occurs_in in H; apply existsb_exists in H.
  destruct H as (d & Hd & E); apply Ascii.eqb_eq in E; now subst.
Qed.

End AlphabetFacts.

(** ** More on the generator *)

Section GeneratorFacts.

Import Js App Spec Aux.

Lemma no_category_iff (st : State) :
  no_category st <-> some_category st = false.
Proof.
  unfold no_category, some_category.
  destruct (includeLowercase st), (includeUppercase st),
    (includeNumbers st), (includeSymbols st); simpl; intuition congruence.
Qed.

(** Every way [generatePassword] can end. *)
Lemma generatePassword_cases (w : Window) (st : State) :
  (no_category st /\ generatePassword w st = Ok (setPassword "" st))
  \/ (some_category st = true /\ crypto w = None
      /\ generatePassword w st = Throw TypeError)
  \/ (exists samples,
         some_category st = true /\ crypto w = Some samples
         /\ List.length samples < length st
         /\ generatePassword w st = Throw QuotaExceededError)
  \/ (exists samples,
         some_category st = true /\ crypto w = Some samples
         /\ length st <= List.length samples
         /\ generatePassword w st
            = Ok (setStrength (classify (sampled st samples))
                    (setPassword (sampled st samples) st))).
Proof.
  destruct (some_category st) eqn:Hcat.
  - right. destruct (crypto w) as [samples|] eqn:Hc.
    + right. destruct (Nat.le_gt_cases (length st) (List.length samples))
        as [Hn|Hn].
      * right; exists samples; repeat split; auto.
        apply generatePassword_sampled; assumption.
      * left; exists samples; repeat split; auto.
        unfold generatePassword.
        rewrite (eqb_empty_false _ (buildAlphabet_nonempty st Hcat)).
        unfold getRandomValues; rewrite Hc, new_Uint32Array_length.
        destruct (length st <=? List.length samples)%nat eqn:E;
          [apply Nat.leb_le in E; lia | reflexivity].
    + left; repeat split.
      unfold generatePassword.
      rewrite (eqb_empty_false _ (buildAlphabet_nonempty st Hcat)).
      now rewrite (getRandomValues_missing w _ Hc).
  - left; apply no_category_iff in Hcat; split; [exact Hcat|].
    apply generatePassword_no_category; exact Hcat.
Qed.

(** When the source, if there is one, serves the request (as the browser's
    does for every length the slider gives), [generatePassword] fails in
    one way only: with the [TypeError] of a missing [window.crypto], and
    exactly when a category is enabled.  In every other case, that is,
    with no category enabled or with a source present, it returns
    normally. *)
Theorem generatePassword_outcome (w : Window) (st : State) :
  (forall samples,
      crypto w = Some samples -> length st <= List.length samples) ->
  (generatePassword w st = Throw TypeError
   <-> some_category st = true /\ crypto w = None)
  /\ ((exists st', generatePassword w st = Ok st')
      <-> some_category st = false \/ crypto w <> None)
  /\ (forall e, generatePassword w st = Throw e -> e = TypeError).
Proof.
  intros Hserved.
  destruct (generatePassword_cases w st)
    as [(Hno & E)|[(Hcat & Hc & E)|[(l & Hcat & Hc & Hn & E)
                                   |(l & Hcat & Hc & Hn & E)]]];
    try (apply no_category_iff in Hno); rewrite E.
  - repeat split; try discriminate; eauto.
    intros (H & _); congruence.
  - repeat split; try discriminate; auto.
    + intros (st' & H); discriminate H.
    + intros [H|H]; congruence.
    + intros e H; congruence.
  - specialize (Hserved l Hc); lia.
  - repeat split; try discriminate; eauto.
    + intros (_ & H); congruence.
    + intros _; right; congruence.
Qed.

Lemma generatePassword_outcome_witness :
  generatePassword Sample.window_without_crypto Sample.digits_and_lowercase
  = Throw TypeError
  /\ exists st',
       generatePassword Sample.secure_window Sample.digits_and_lowercase
       = Ok st'.
Proof.
  split.
  - apply (proj1 (generatePassword_outcome
                    Sample.window_without_crypto
                    Sample.digits_and_lowercase
                    ltac:(intros samples H; discriminate H))).
    split; reflexivity.
  - apply (proj2 (proj1 (proj2 (generatePassword_outcome
                    Sample.secure_window Sample.digits_and_lowercase
                    ltac:(intros samples H; injection H as <-;
                          simpl; lia))))).
    right; discriminate.
Defined.

Lemma generatePassword_ok_inv (w : Window) (st st' : State) :
  generatePassword w st = Ok st' ->
  (no_category st /\ st' = setPassword "" st)
  \/ (some_category st = true
      /\ exists samples,
           crypto w = Some samples /\ length st <= List.length samples
           /\ st' = setStrength (classify (sampled st samples))
                      (setPassword (sampled st samples) st)).
Proof.
  intros H.
  destruct (generatePassword_cases w st)
    as [(Hno & E)|[(Hcat & Hc & E)|[(l & Hcat & Hc & Hn & E)
                                   |(l & Hcat & Hc & Hn & E)]]];
    rewrite E in H; try discriminate H; inversion H; subst st'; clear H.
  - left; auto.
  - right; split; [exact Hcat|]; exists l; auto.
Qed.

Lemma sampled_length (st : State) (samples : list Z) :
  some_category st = true ->
  String.length (sampled st samples) = length st.
Proof.
  intros Hcat; apply sample_loop_length, buildAlphabet_nonempty, Hcat.
Qed.

Lemma generated_in_alphabet (w : Window) (st st' : State) (c : ascii) :
  generatePassword w st = Ok st' ->
  In c (list_ascii_of_string (password st')) ->
  In c (list_ascii_of_string (buildAlphabet st)).
Proof.
  intros H.
  destruct (generatePassword_ok_inv w st st' H)
    as [(Hno & ->)|(Hcat & l & Hc & Hn & ->)].
  - intros [].
  - cbn [password setStrength setPassword]; unfold sampled.
    apply sample_loop_in, buildAlphabet_nonempty, Hcat.
Qed.

Lemma generated_without (w : Window) (st st' : State) :
  generatePassword w st = Ok st' ->
  (includeUppercase st = false ->
   contains uppercase_letter (password st') = false)
  /\ (includeLowercase st = false ->
      contains lowercase_letter (password st') = false)
  /\ (includeNumbers st = false -> contains digit (password st') = false)
  /\ (includeSymbols st = false ->
      contains outside_alnum (password st') = false).
Proof.
  intros H.
  repeat split; intros E; apply contains_false_of_forall; intros c Hc;
    apply (buildAlphabet_excludes st c (generated_in_alphabet w st st' c H Hc));
    exact E.
Qed.

(** A normal return of [generatePassword] changes the password and the
    strength only: length, the four check boxes and the copied flag keep
    their values.  With a category enabled the new password has [length]
    characters and the new strength is the tier of that password. *)
Theorem generatePassword_frame (w : Window) (st st' : State) :
  generatePassword w st = Ok st' ->
  length st' = length st
  /\ includeUppercase st' = includeUppercase st
  /\ includeLowercase st' = includeLowercase st
  /\ includeNumbers st' = includeNumbers st
  /\ includeSymbols st' = includeSymbols st
  /\ copied st' = copied st
  /\ (some_category st = true ->
      String.length (password st') = length st
      /\ strength st' = classify (password st')).
Proof.
  intros H.
  destruct (generatePassword_ok_inv w st st' H)
    as [(Hno & ->)|(Hcat & l & Hc & Hn & ->)].
  - apply no_category_iff in Hno.
    repeat split; try reflexivity; congruence.
  - repeat split; try reflexivity.
    cbn [password setStrength setPassword].
    apply sampled_length, Hcat.
Qed.

Lemma generatePassword_frame_witness :
  length (setStrength weak (setPassword "fda" Sample.digits_and_lowercase))
  = 3
  /\ String.length
       (password
          (setStrength weak (setPassword "fda" Sample.digits_and_lowercase)))
     = 3
  /\ strength
       (setStrength weak (setPassword "fda" Sample.digits_and_lowercase))
     = classify "fda".
Proof.
  destruct (generatePassword_frame
              Sample.secure_window Sample.digits_and_lowercase
              (setStrength weak
                 (setPassword "fda" Sample.digits_and_lowercase))
              eq_refl)
    as (Hlen & _ & _ & _ & _ & _ & Hpw).
  destruct (Hpw eq_refl) as [Hn Hs].
  split; [exact Hlen|]; split; [exact Hn | exact Hs].
Defined.

(** A category that is switched off leaves no character in the generated
    password: no uppercase letter with the uppercase box off, no lowercase
    letter with the lowercase box off, no digit with the numbers box off,
    and nothing outside [A-Za-z0-9] with the symbols box off. *)
Theorem generatePassword_respects_boxes (w : Window) (st st' : State) :
  generatePassword w st = Ok st' ->
  (includeUppercase st = false ->
   contains uppercase_letter (password st') = false)
  /\ (includeLowercase st = false ->
      contains lowercase_letter (password st') = false)
  /\ (includeNumbers st = false -> contains digit (password st') = false)
  /\ (includeSymbols st = false ->
      contains outside_alnum (password st') = false).
Proof.
  intros H.
  pose proof (generated_without w st st' H) as (Hu & Hl & Hd & Hs).
  split; [exact Hu|]; split; [exact Hl|]; split; [exact Hd | exact Hs].
Qed.

Lemma generatePassword_respects_boxes_witness :
  contains uppercase_letter "fda" = false
  /\ contains outside_alnum "fda" = false.
Proof.
  destruct (generatePassword_respects_boxes
              Sample.secure_window Sample.digits_and_lowercase
              (setStrength weak
                 (setPassword "fda" Sample.digits_and_lowercase))
              eq_refl)
    as (Hu & _ & _ & Hs).
  split; [exact (Hu eq_refl) | exact (Hs eq_refl)].
Defined.

(** The configuration bounds the strength of what it generates: the score
    of a generated password is at most one point for a length above 8, one
    for a length above 12, and one for each of the uppercase, numbers and
    symbols boxes that is on.  So with the lowercase box alone the result
    is weak whatever the length, and a length of 8 or less never gives
    strong or very-strong. *)
Theorem generatePassword_score_bound (w : Window) (st st' : State) :
  generatePassword w st = Ok st' ->
  some_category st = true ->
  score (password st')
  <= point (8 <? length st)%nat + point (12 <? length st)%nat
     + point (includeUppercase st) + point (includeNumbers st)
     + point (includeSymbols st)
  /\ (includeUppercase st = false -> includeNumbers st = false ->
      includeSymbols st = false -> strength st' = weak)
  /\ (length st <= 8 -> strength st' = weak \/ strength st' = medium).
Proof.
  intros H Hcat.
  destruct (generated_without w st st' H) as (Hu & _ & Hd & Hs).
  assert (Hlen : String.length (password st') = length st
                 /\ strength st' = classify (password st')).
  { destruct (generatePassword_ok_inv w st st' H)
      as [(Hno & ->)|(_ & l & Hc & Hn & ->)].
    - apply no_category_iff in Hno; congruence.
    - cbn [password strength setStrength setPassword].
      split; [apply sampled_length, Hcat | reflexivity]. }
  destruct Hlen as [Hlen Hstr].
  assert (B : predicate_score (password st')
              <= point (8 <? length st)%nat + point (12 <? length st)%nat
                 + point (includeUppercase st) + point (includeNumbers st)
                 + point (includeSymbols st)).
  { unfold predicate_score; rewrite Hlen.
    destruct (includeUppercase st); [|rewrite (Hu eq_refl)];
      destruct (includeNumbers st); try rewrite (Hd eq_refl);
      destruct (includeSymbols st); try rewrite (Hs eq_refl);
      destruct (contains uppercase_letter (password st'));
      destruct (contains digit (password st'));
      destruct (contains outside_alnum (password st'));
      simpl; lia. }
  split; [rewrite score_predicate_score; exact B|].
  rewrite Hstr, classify_of_score; split.
  - intros Eu En Es; rewrite Eu, En, Es in B.
    destruct (8 <? length st)%nat, (12 <? length st)%nat; simpl in B;
      destruct (predicate_score (password st')) as [|[|[|n]]];
      try reflexivity; lia.
  - intros Hle.
    assert (E8 : (8 <? length st)%nat = false) by (apply Nat.ltb_ge; lia).
    assert (E12 : (12 <? length st)%nat = false) by (apply Nat.ltb_ge; lia).
    rewrite E8, E12 in B.
    destruct (includeUppercase st), (includeNumbers st), (includeSymbols st);
      simpl in B;
      destruct (predicate_score (password st')) as [|[|[|[|n]]]];
      auto; lia.
Qed.

Lemma generatePassword_score_bound_witness :
  score "fda" <= 1
  /\ (strength
        (setStrength weak (setPassword "fda" Sample.digits_and_lowercase))
      = weak
      \/ strength
           (setStrength weak (setPassword "fda" Sample.digits_and_lowercase))
         = medium).
Proof.
  destruct (generatePassword_score_bound
              Sample.secure_window Sample.digits_and_lowercase
              (setStrength weak
                 (setPassword "fda" Sample.digits_and_lowercase))
              eq_refl eq_refl)
    as (Hb & _ & Hl).
  split; [exact Hb | apply Hl; simpl; lia].
Defined.

End GeneratorFacts.

(** ** Which passwords the samples select *)

Section Sampling.

Import Js App Spec Aux.

Lemma string_ext (a b : string) :
  String.length a = String.length b ->
  (forall j, j < String.length a -> String.get j a = String.get j b) ->
  a = b.
Proof.
  revert b; induction a as [|c a IH]; intros [|d b] Hlen Hget;
    simpl in *; try discriminate; [reflexivity|].
  assert (E : Some c = Some d) by (apply (Hget 0); lia).
  injection E as ->; f_equal; apply IH; [lia|].
  intros j Hj; apply (Hget (S j)); lia.
Qed.

Lemma get_nth_error (s : string) (j : nat) :
  String.get j s = nth_error (list_ascii_of_string s) j.
Proof.
  revert j; induction s as [|c s IH]; intros [|j]; simpl; auto.
Qed.

Lemma length_list_ascii (s : string) :
  List.length (list_ascii_of_string s) = String.length s.
Proof.
  induction s as [|c s IH]; simpl; auto.
Qed.

Lemma index_of_get (c : ascii) (s : string) :
  In c (list_ascii_of_string s) ->
  index_of c s < String.length s /\ String.get (index_of c s) s = Some c.
Proof.
  induction s as [|d s IH]; simpl; [intros []|].
  intros H; destruct (Ascii.eqb c d) eqn:E.
  - apply Ascii.eqb_eq in E; subst; split; [lia | reflexivity].
  - destruct H as [->|H]; [rewrite Ascii.eqb_refl in E; discriminate|].
    destruct (IH H); split; [lia | assumption].
Qed.

Lemma buildAlphabet_small (st : State) :
  String.length (buildAlphabet st) <= 88.
Proof.
  unfold buildAlphabet.
  destruct (includeLowercase st), (includeUppercase st),
    (includeNumbers st), (includeSymbols st); vm_compute; lia.
Qed.

(** The character at position [j] of the sampled password, in terms of the
    [j]-th sample. *)
Lemma sampled_get (st : State) (samples : list Z) (j : nat) :
  some_category st = true ->
  length st <= List.length samples ->
  j < length st ->
  String.get j (sampled st samples)
  = String.get
      (Z.to_nat (ToUint32 (nth j samples 0%Z)
                 mod Z.of_nat (String.length (buildAlphabet st))))
      (buildAlphabet st).
Proof.
  intros Hcat Hn Hj.
  destruct (sample_loop_get _ (buildAlphabet_nonempty st Hcat)
              (firstn (length st) samples) (length st) 0 j Hj)
    as (c & Hget & Hidx).
  unfold sampled; rewrite Hget, <- Hidx; simpl.
  rewrite (at_index_filled samples _ j (nth j samples 0%Z) Hj);
    [reflexivity|].
  apply nth_error_nth'; lia.
Qed.

(** The password depends on the samples only through the residues, modulo
    the length of the alphabet, of the first [length] of them: two sources
    whose samples agree on these residues give the same result. *)
Theorem generatePassword_residues (w1 w2 : Window) (st : State)
        (s1 s2 : list Z) :
  some_category st = true ->
  crypto w1 = Some s1 -> crypto w2 = Some s2 ->
  length st <= List.length s1 -> length st <= List.length s2 ->
  (forall j,
      j < length st ->
      (ToUint32 (nth j s1 0)
       mod Z.of_nat (String.length (buildAlphabet st))
       = ToUint32 (nth j s2 0)
         mod Z.of_nat (String.length (buildAlphabet st)))%Z) ->
  generatePassword w1 st = generatePassword w2 st.
Proof.
  intros Hcat H1 H2 Hn1 Hn2 Hres.
  rewrite (generatePassword_sampled w1 st s1 H1 Hn1 Hcat),
    (generatePassword_sampled w2 st s2 H2 Hn2 Hcat).
  fold (sampled st s1); fold (sampled st s2).
  assert (E : sampled st s1 = sampled st s2); [|now rewrite E].
  apply string_ext.
  - now rewrite !sampled_length.
  - rewrite sampled_length by exact Hcat; intros j Hj.
    rewrite !sampled_get by assumption.
    now rewrite (Hres j Hj).
Qed.

Lemma generatePassword_residues_witness :
  generatePassword Sample.secure_window Sample.digits_and_lowercase
  = generatePassword {| crypto := Some [41; 3; 0; 1; 2]%Z |}
      Sample.digits_and_lowercase.
Proof.
  apply (generatePassword_residues
           Sample.secure_window {| crypto := Some [41; 3; 0; 1; 2]%Z |}
           Sample.digits_and_lowercase
           [5; 4294967295; 36; 77]%Z [41; 3; 0; 1; 2]%Z).
  - reflexivity.
  - reflexivity.
  - reflexivity.
  - simpl; lia.
  - simpl; lia.
  - intros [|[|[|j]]] Hj; [reflexivity | reflexivity | reflexivity|].
    simpl in Hj; lia.
Defined.

(** Every string of [length] characters of the alphabet can come out: for
    each such target there are unsigned 32-bit samples for which
    [generatePassword] stores exactly the target, rated by
    [calculateStrength]. *)
Theorem generatePassword_onto (st : State) (target : string) :
  some_category st = true ->
  String.length target = length st ->
  (forall c, In c (list_ascii_of_string target) ->
             In c (list_ascii_of_string (buildAlphabet st))) ->
  exists samples,
    List.length samples = length st
    /\ Forall is_uint32 samples
    /\ generatePassword {| crypto := Some samples |} st
       = Ok (setStrength (classify target) (setPassword target st)).
Proof.
  intros Hcat Hlen Hin.
  set (cs := buildAlphabet st) in *.
  set (samples := map (fun c => Z.of_nat (index_of c cs))
                      (list_ascii_of_string target)).
  assert (Hsl : List.length samples = length st)
    by (unfold samples; now rewrite length_map, length_list_ascii).
  assert (Hsmall : String.length cs <= 88) by apply buildAlphabet_small.
  assert (Hu : Forall is_uint32 samples).
  { unfold samples; apply Forall_forall; intros r Hr.
    apply in_map_iff in Hr; destruct Hr as (c & <- & Hc).
    destruct (index_of_get c cs (Hin c Hc)) as [Hlt _].
    unfold is_uint32; lia. }
  exists samples; split; [exact Hsl|]; split; [exact Hu|].
  rewrite (generatePassword_sampled {| crypto := Some samples |} st samples
             eq_refl) by (auto; lia).
  fold (sampled st samples).
  assert (E : sampled st samples = target); [|now rewrite E].
  apply string_ext.
  - now rewrite sampled_length.
  - rewrite sampled_length by exact Hcat; intros j Hj.
    rewrite sampled_get by (auto; lia); fold cs.
    destruct (get_some_lt target j ltac:(lia)) as [c Hc].
    assert (Hn : nth j samples 0%Z = Z.of_nat (index_of c cs)).
    { apply nth_error_nth; unfold samples.
      rewrite nth_error_map, <- get_nth_error, Hc; reflexivity. }
    destruct (index_of_get c cs (Hin c (get_in _ _ _ Hc))) as [Hlt Hg].
    rewrite Hn, ToUint32_id by (unfold is_uint32; lia).
    rewrite Z.mod_small by lia.
    now rewrite Nat2Z.id, Hg, Hc.
Qed.

Lemma generatePassword_onto_witness :
  exists samples,
    List.length samples = 3
    /\ Forall is_uint32 samples
    /\ generatePassword {| crypto := Some samples |}
         Sample.digits_and_lowercase
       = Ok (setStrength (classify "z09")
               (setPassword "z09" Sample.digits_and_lowercase)).
Proof.
  apply (generatePassword_onto Sample.digits_and_lowercase "z09").
  - reflexivity.
  - reflexivity.
  - simpl; intros c H.
    repeat (destruct H as [<-|H]; [vm_compute; tauto|]); destruct H.
Defined.

End Sampling.

(** ** More on the classifier *)

Section ClassifierFacts.

Import Js App Spec Aux.

Lemma contains_append (p : ascii -> bool) (a b : string) :
  contains p (a ++ b) = contains p a || contains p b.
Proof.
  unfold contains; induction a as [|c a IH]; simpl; [reflexivity|].
  now rewrite IH, orb_assoc.
Qed.

Lemma point_le (a b : bool) : (a = true -> b = true) -> point a <= point b.
Proof.
  destruct a, b; simpl; intros H; try lia.
Qed.

Lemma predicate_score_append (p q : string) :
  predicate_score p <= predicate_score (p ++ q)
  /\ predicate_score q <= predicate_score (p ++ q).
Proof.
  unfold predicate_score.
  rewrite !contains_append, length_append.
  split; repeat apply Nat.add_le_mono; apply point_le;
    rewrite ?Nat.ltb_lt, ?orb_true_iff; try lia; auto.
Qed.

Lemma tier_le_of_score (p q : string) :
  predicate_score p <= predicate_score q -> tier_le (classify p) (classify q).
Proof.
  rewrite !classify_of_score; unfold tier_le.
  destruct (predicate_score p) as [|[|[|[|[|n]]]]];
    destruct (predicate_score q) as [|[|[|[|[|m]]]]];
    simpl; lia.
Qed.

(** Characters added to a password, in front or behind, never lower its
    tier. *)
Theorem classify_append (p q : string) :
  tier_le (classify p) (classify (p ++ q))
  /\ tier_le (classify q) (classify (p ++ q)).
Proof.
  split; apply tier_le_of_score; apply predicate_score_append.
Qed.

(** A password is very-strong exactly when it is longer than 12 characters
    and holds an uppercase letter, a digit and a character outside
    [A-Za-z0-9]; it is weak exactly when at most two of the five conditions
    (longer than 8, longer than 12, uppercase, digit, other) hold. *)
Theorem classify_extremes (pwd : string) :
  (classify pwd = very_strong
   <-> 12 < String.length pwd
       /\ contains uppercase_letter pwd = true
       /\ contains digit pwd = true
       /\ contains outside_alnum pwd = true)
  /\ (classify pwd = weak <-> predicate_score pwd <= 2).
Proof.
  rewrite classify_of_score; unfold predicate_score.
  destruct (12 <? String.length pwd)%nat eqn:E12;
    [apply Nat.ltb_lt in E12 | apply Nat.ltb_ge in E12];
    destruct (8 <? String.length pwd)%nat eqn:E8;
    try (apply Nat.ltb_lt in E8); try (apply Nat.ltb_ge in E8); try lia;
    destruct (contains uppercase_letter pwd), (contains digit pwd),
      (contains outside_alnum pwd); simpl;
    (split; split; intros H; try discriminate H; try reflexivity;
     try lia; try (repeat split; try reflexivity; lia);
     try (destruct H as (H1 & H2 & H3 & H4); try discriminate; lia)).
Qed.

Lemma classify_extremes_witness :
  classify "Abcdefghijkl1!" = very_strong /\ classify "abcdefghijklmnop" = weak.
Proof.
  split.
  - apply (proj2 (proj1 (classify_extremes "Abcdefghijkl1!"))).
    repeat split; [simpl; lia]. 
  - apply (proj2 (proj2 (classify_extremes "abcdefghijklmnop"))).
    vm_compute; lia.
Defined.

(** Length alone caps the tier: a password of at most 8 characters is weak
    or medium, and one of at most 12 characters is never very-strong; and
    characters alone do too: a password without uppercase letter, digit or
    other character is weak however long it is. *)
Theorem classify_caps (pwd : string) :
  (String.length pwd <= 8 -> tier_le (classify pwd) medium)
  /\ (String.length pwd <= 12 -> tier_le (classify pwd) strong)
  /\ (contains uppercase_letter pwd = false ->
      contains digit pwd = false ->
      contains outside_alnum pwd = false -> classify pwd = weak).
Proof.
  rewrite classify_of_score; unfold predicate_score, tier_le.
  repeat split.
  - intros H.
    assert (E8 : (8 <? String.length pwd)%nat = false)
      by (apply Nat.ltb_ge; lia).
    assert (E12 : (12 <? String.length pwd)%nat = false)
      by (apply Nat.ltb_ge; lia).
    rewrite E8, E12.
    destruct (contains uppercase_letter pwd), (contains digit pwd),
      (contains outside_alnum pwd); simpl; lia.
  - intros H.
    assert (E12 : (12 <? String.length pwd)%nat = false)
      by (apply Nat.ltb_ge; lia).
    rewrite E12.
    destruct (8 <? String.length pwd)%nat,
      (contains uppercase_letter pwd), (contains digit pwd),
      (contains outside_alnum pwd); simpl; lia.
  - intros -> -> ->.
    destruct (8 <? String.length pwd)%nat, (12 <? String.length pwd)%nat;
      reflexivity.
Qed.

Lemma classify_caps_witness :
  tier_le (classify "Ab1!") medium
  /\ tier_le (classify "Abcdefghi1!") strong
  /\ classify "abcdefghijklmnopqrstuvwxyzabcdefghijklmnopqrstuvwxyz" = weak.
Proof.
  split; [|split].
  - apply (proj1 (classify_caps "Ab1!")); simpl; lia.
  - apply (proj1 (proj2 (classify_caps "Abcdefghi1!"))); simpl; lia.
  - apply (proj2 (proj2 (classify_caps
       "abcdefghijklmnopqrstuvwxyzabcdefghijklmnopqrstuvwxyz")));
      reflexivity.
Defined.

End ClassifierFacts.

(** ** The component as a whole *)

Section ComponentFacts.

Import Js App Spec Aux Component.

Lemma invariant_first_render (clip : string) : invariant (first_render clip).
Proof.
  unfold invariant; simpl; repeat split; try lia; auto; discriminate.
Qed.

Lemma range_value_bounds (v : nat) : 6 <= range_value v <= 50.
Proof. unfold range_value; lia. Qed.

Lemma copyToClipboard_cases (granted : bool) (h : Host) (st : State) :
  (copyToClipboard granted h st = (h, st) /\ password st = "")
  \/ (copyToClipboard granted h st = (console_error "Failed to copy!" h, st)
      /\ password st <> "" /\ granted = false)
  \/ (copyToClipboard granted h st
      = (setTimeout (fun s => setCopied false s) 2000
           {| clipboard := password st; timers := timers h;
              console := console h |},
         setCopied true st)
      /\ password st <> "" /\ granted = true).
Proof.
  unfold copyToClipboard.
  destruct (String.eqb (password st) "") eqn:E.
  - left; apply String.eqb_eq in E; auto.
  - right; apply String.eqb_neq in E.
    destruct granted; simpl; [right | left]; auto.
Qed.

Lemma invariant_handle (e : Event) (wd : World) :
  invariant wd -> invariant (handle e wd).
Proof.
  intros (Hlen & Hpw & Hcp & Htm).
  destruct e as [w|granted|v|b|]; simpl.
  - destruct (generatePassword w (app wd)) as [st'|] eqn:E;
      [|repeat split; auto; lia].
    destruct (generatePassword_ok_inv w (app wd) st' E)
      as [(Hno & ->)|(Hcat & l & Hc & Hn & ->)];
      unfold invariant; cbn [app host password length copied strength
                               setStrength setPassword];
      (split; [lia|]); (split; [|split; assumption]).
    + left; reflexivity.
    + right; split; [reflexivity|]; unfold well_formed.
      rewrite (sampled_length _ _ Hcat); split; [lia|].
      intros c Hin; apply (buildAlphabet_in_full (app wd)).
      revert Hin; unfold sampled.
      apply sample_loop_in, buildAlphabet_nonempty, Hcat.
  - destruct (copyToClipboard_cases granted (host wd) (app wd))
      as [(E & _)|[(E & _)|(E & _)]]; rewrite E;
      unfold invariant; cbn; repeat split; try lia; auto.
    + intros _ H; apply app_eq_nil in H; destruct H; discriminate.
    + apply Forall_app; split; [assumption|].
      constructor; [|constructor]. split; reflexivity.
  - pose proof (range_value_bounds v).
    unfold invariant;
      cbn [app host length password copied strength changeLength setLength];
      repeat split; try lia; auto.
  - destruct b; unfold invariant; cbn; repeat split; try lia; auto.
  - destruct (timers (host wd)) as [|t ts] eqn:Et.
    { unfold invariant; rewrite Et; repeat split; auto; lia. }
    inversion Htm as [|? ? [_ Hcb] Hts]; subst.
    unfold invariant; cbn [app host timers]; rewrite Hcb; cbn.
    repeat split; try lia; auto; discriminate.
Qed.

Lemma reachable_invariant (wd : World) : reachable wd -> invariant wd.
Proof.
  induction 1; [apply invariant_first_render | now apply invariant_handle].
Qed.

(** Whatever the user does, the length stays between 6 and 50, so a click
    on the refresh button never throws once the secure source can serve 50
    samples. *)
Theorem reachable_length (wd : World) :
  reachable wd ->
  6 <= length (app wd) <= 50
  /\ forall w samples,
       crypto w = Some samples -> 50 <= List.length samples ->
       exists st',
         generatePassword w (app wd) = Ok st'
         /\ handle (ClickGenerate w) wd = {| app := st'; host := host wd |}.
Proof.
  intros H; destruct (reachable_invariant wd H) as (Hlen & _).
  split; [exact Hlen|]; intros w samples Hc Hn.
  destruct (generatePassword_cases w (app wd))
    as [(Hno & E)|[(Hcat & Hc' & E)|[(l & Hcat & Hc' & Hn' & E)
                                    |(l & Hcat & Hc' & Hn' & E)]]];
    try (rewrite Hc in Hc'; try discriminate Hc';
         injection Hc' as <-; try lia);
    eexists; (split; [exact E|]); simpl; rewrite E; reflexivity.
Qed.

Lemma reachable_length_witness :
  6 <= length (app (handle (ChangeLength 3) (first_render ""))) <= 50.
Proof.
  apply (reachable_length (handle (ChangeLength 3) (first_render ""))).
  apply reach_handle, reach_first.
Defined.

(** Whatever the user does, a password on display is rated: the strength
    shown is the tier of the password shown, and that password has 6 to 50
    characters, all from the four classes.  (The boxes and the slider may
    have moved since it was generated.) *)
Theorem reachable_password_rated (wd : World) :
  reachable wd ->
  password (app wd) <> "" ->
  strength (app wd) = classify (password (app wd))
  /\ well_formed (password (app wd)).
Proof.
  intros H Hne; destruct (reachable_invariant wd H) as (_ & [E|Hpw] & _).
  - contradiction.
  - exact Hpw.
Qed.

Lemma reachable_password_rated_witness :
  strength
    (app (handle (ClickBox Symbols)
            (handle (ClickGenerate {| crypto := Some (repeat 7%Z 16) |})
               (first_render ""))))
  = classify "hhhhhhhhhhhhhhhh"
  /\ well_formed "hhhhhhhhhhhhhhhh".
Proof.
  apply (reachable_password_rated
           (handle (ClickBox Symbols)
              (handle (ClickGenerate {| crypto := Some (repeat 7%Z 16) |})
                 (first_render "")))).
  - apply reach_handle, reach_handle, reach_first.
  - vm_compute; discriminate.
Defined.

Lemma settle_timers (ts : list Timer) (st : State) (clip : string)
      (log : list string) :
  Forall resets_copied ts ->
  (copied st = true -> ts <> []) ->
  run (repeat TimerFires (List.length ts))
      {| app := st;
         host := {| clipboard := clip; timers := ts; console := log |} |}
  = {| app := setCopied false st;
       host := {| clipboard := clip; timers := []; console := log |} |}.
Proof.
  revert st; induction ts as [|t ts IH]; intros st Hts Hcp.
  - simpl; destruct st as [pw n u l d s cp tier]; simpl in *.
    destruct cp; [exfalso; now apply Hcp | reflexivity].
  - inversion Hts as [|? ? [_ Hcb] Hts']; subst.
    cbn [List.length repeat run fold_left handle host timers app clipboard
           console].
    fold (run (repeat TimerFires (List.length ts))).
    rewrite Hcb, IH; [reflexivity | assumption |].
    simpl; discriminate.
Qed.

(** The copied mark never sticks: whatever the user does, a mark that is
    shown has a timer pending, and once the pending timers have fired the
    mark is off, no timer is left, and nothing else has changed. *)
Theorem reachable_copied_clears (wd : World) :
  reachable wd ->
  (copied (app wd) = true -> timers (host wd) <> [])
  /\ app (settle wd) = setCopied false (app wd)
  /\ timers (host (settle wd)) = []
  /\ clipboard (host (settle wd)) = clipboard (host wd).
Proof.
  intros H; destruct (reachable_invariant wd H) as (_ & _ & Hcp & Hts).
  split; [exact Hcp|].
  unfold settle; destruct wd as [st [clip ts log]]; simpl in *.
  rewrite (settle_timers ts st clip log Hts Hcp); auto.
Qed.

Lemma reachable_copied_clears_witness :
  app (settle
         (handle (ClickCopy true)
            (handle (ClickGenerate {| crypto := Some (repeat 7%Z 16) |})
               (first_render ""))))
  = setCopied false
      (app (handle (ClickCopy true)
              (handle (ClickGenerate {| crypto := Some (repeat 7%Z 16) |})
                 (first_render "")))).
Proof.
  apply (reachable_copied_clears
           (handle (ClickCopy true)
              (handle (ClickGenerate {| crypto := Some (repeat 7%Z 16) |})
                 (first_render "")))).
  apply reach_handle, reach_handle, reach_first.
Defined.

(** [copyToClipboard] never throws and never touches the password, the
    strength, the length or the boxes.  With an empty password it does
    nothing at all.  When the write is refused it changes nothing but the
    error log, which gets one message.  When the write is granted the
    clipboard holds the password, the copied mark is on, and one timer is
    added behind the pending ones: the reset of the mark after 2000 ms. *)
Theorem copyToClipboard_effects (granted : bool) (h : Host) (st : State) :
  setCopied (copied st) (snd (copyToClipboard granted h st)) = st
  /\ (password st = "" -> copyToClipboard granted h st = (h, st))
  /\ (password st <> "" -> granted = false ->
      snd (copyToClipboard granted h st) = st
      /\ clipboard (fst (copyToClipboard granted h st)) = clipboard h
      /\ timers (fst (copyToClipboard granted h st)) = timers h
      /\ console (fst (copyToClipboard granted h st))
         = (console h ++ ["Failed to copy!"])%list)
  /\ (password st <> "" -> granted = true ->
      copied (snd (copyToClipboard granted h st)) = true
      /\ clipboard (fst (copyToClipboard granted h st)) = password st
      /\ console (fst (copyToClipboard granted h st)) = console h
      /\ exists t,
           timers (fst (copyToClipboard granted h st))
           = (timers h ++ [t])%list
           /\ resets_copied t).
Proof.
  destruct (copyToClipboard_cases granted h st)
    as [(E & Hp)|[(E & Hp & Hg)|(E & Hp & Hg)]]; rewrite E; simpl;
    (split; [destruct st; reflexivity|]);
    repeat split; try congruence; try contradiction.
  eexists; split; [reflexivity | split; reflexivity].
Qed.

Lemma copyToClipboard_effects_witness :
  copyToClipboard false
    {| clipboard := "old"; timers := []; console := [] |} App.initial
  = ({| clipboard := "old"; timers := []; console := [] |}, App.initial)
  /\ clipboard
       (fst (copyToClipboard true
               {| clipboard := "old"; timers := []; console := [] |}
               (setPassword "fda" Sample.digits_and_lowercase)))
     = "fda"
  /\ console
       (fst (copyToClipboard false
               {| clipboard := "old"; timers := []; console := [] |}
               (setPassword "fda" Sample.digits_and_lowercase)))
     = ["Failed to copy!"].
Proof.
  split; [|split].
  - apply (proj1 (proj2 (copyToClipboard_effects false
       {| clipboard := "old"; timers := []; console := [] |} App.initial))).
    reflexivity.
  - apply (proj2 (proj2 (proj2 (copyToClipboard_effects true
       {| clipboard := "old"; timers := []; console := [] |}
       (setPassword "fda" Sample.digits_and_lowercase))))).
    + simpl; discriminate.
    + reflexivity.
  - apply (proj1 (proj2 (proj2 (copyToClipboard_effects false
       {| clipboard := "old"; timers := []; console := [] |}
       (setPassword "fda" Sample.digits_and_lowercase))))).
    + simpl; discriminate.
    + reflexivity.
Defined.


(** The strength meter lights the segment of a tier exactly when that tier
    is at most the strength on display, so the lit segments are the first
    [levels] ones and there is always one; for a password just rated, their
    number is the score less one, and one for a score of 0 or 1. *)
Theorem meter_segments (st : State) :
  map fst (meter st) = [weak; medium; strong; very_strong]
  /\ (forall s lit, In (s, lit) (meter st) ->
                    (lit = true <-> tier_le s (strength st)))
  /\ List.length (filter snd (meter st)) = levels (strength st)
  /\ 1 <= levels (strength st) <= 4
  /\ forall pwd,
       List.length (filter snd (meter (calculateStrength pwd st)))
       = Nat.max 1 (score pwd - 1).
Proof.
  split; [reflexivity|]; split; [|split; [|split]].
  - intros s lit; unfold meter, tier_le; simpl.
    destruct (strength st); simpl;
      intros [H|[H|[H|[H|[]]]]]; injection H as <- <-; simpl;
      split; intros; try discriminate; try reflexivity; lia.
  - unfold meter; destruct (strength st); reflexivity.
  - destruct (strength st); simpl; lia.
  - intros pwd; rewrite calculateStrength_frame, classify_of_score.
    pose proof (predicate_score_le_5 pwd) as H5.
    rewrite score_predicate_score.
    destruct (predicate_score pwd) as [|[|[|[|[|[|n]]]]]];
      try reflexivity; lia.
Qed.

Lemma meter_segments_witness :
  true = true <-> tier_le medium (strength (setStrength strong App.initial)).
Proof.
  apply (proj1 (proj2 (meter_segments (setStrength strong App.initial)))).
  simpl; auto.
Defined.

(** A second click on a check box undoes the first, and clicks on
    different boxes can be made in either order.  A click switches the
    class of its box in or out of the enabled classes, leaves the other
    classes as they are, and changes nothing else: the password and the
    strength on display stay, they are not generated anew. *)
Theorem clickBox_toggles (b b' : Box) (st : State) :
  clickBox b (clickBox b st) = st
  /\ clickBox b (clickBox b' st) = clickBox b' (clickBox b st)
  /\ existsb (String.eqb (class_of b)) (enabled_classes (clickBox b st))
     = negb (checked b st)
  /\ filter (fun cls => negb (String.eqb cls (class_of b)))
            (enabled_classes (clickBox b st))
     = filter (fun cls => negb (String.eqb cls (class_of b)))
              (enabled_classes st)
  /\ password (clickBox b st) = password st
  /\ strength (clickBox b st) = strength st
  /\ length (clickBox b st) = length st
  /\ copied (clickBox b st) = copied st.
Proof.
  destruct st as [pw n u l d s cp t].
  repeat split; try (destruct b; reflexivity).
  - destruct b; unfold clickBox, Checkbox; simpl;
      rewrite negb_involutive; reflexivity.
  - destruct b, b'; reflexivity.
  - destruct b, u, l, d, s; reflexivity.
  - destruct b, u, l, d, s; reflexivity.
Qed.

End ComponentFacts.

(** ** The share of each character *)

Section Bias.

Import Js App Spec Aux.

Lemma residue_class (N L j r : Z) :
  (0 < L)%Z -> (0 <= j < L)%Z -> (0 <= r < N)%Z ->
  (r mod L = j
   <-> exists k,
         (0 <= k < N / L + (if j <? N mod L then 1 else 0))%Z
         /\ r = (j + k * L)%Z)%Z.
Proof.
  intros HL Hj Hr.
  pose proof (Z.div_mod N L ltac:(lia)) as HN.
  pose proof (Z.mod_pos_bound N L HL) as Hm.
  split.
  - intros E; exists (r / L)%Z.
    pose proof (Z.div_mod r L ltac:(lia)) as Hd.
    assert (0 <= r / L)%Z by (apply Z.div_pos; lia).
    split; [|lia].
    split; [assumption|].
    destruct (j <? N mod L)%Z eqn:Ej;
      [apply Z.ltb_lt in Ej | apply Z.ltb_ge in Ej]; nia.
  - intros (k & Hk & ->).
    rewrite Z.mod_add by lia; apply Z.mod_small; lia.
Qed.

(** Plain reduction modulo the alphabet length: the unsigned 32-bit sample
    values that select position [j] of the alphabet are exactly [j],
    [j + L], [j + 2L], ... below 2^32, so each position is selected by
    [2^32 / L] of them or by one more, and by at least 48806446 (the
    alphabet has at most 88 characters). *)
Theorem sample_position_share (st : State) (j : nat) (r : Z) :
  some_category st = true ->
  j < String.length (buildAlphabet st) ->
  is_uint32 r ->
  (Z.to_nat (Z.rem r (Z.of_nat (String.length (buildAlphabet st)))) = j
   <-> exists k,
         (0 <= k
          < 2 ^ 32 / Z.of_nat (String.length (buildAlphabet st))
            + (if Z.of_nat j
                  <? 2 ^ 32 mod Z.of_nat (String.length (buildAlphabet st))
               then 1 else 0))%Z
         /\ r = (Z.of_nat j
                 + k * Z.of_nat (String.length (buildAlphabet st)))%Z)
  /\ (48806446 <= 2 ^ 32 / Z.of_nat (String.length (buildAlphabet st)))%Z.
Proof.
  intros Hcat Hj Hr.
  pose proof (length_pos_of_nonempty _ (buildAlphabet_nonempty st Hcat))
    as Hpos.
  pose proof (buildAlphabet_small st) as Hsmall.
  set (L := Z.of_nat (String.length (buildAlphabet st))) in *.
  assert (HL : (0 < L <= 88)%Z) by (unfold L; lia).
  split.
  - destruct (rem_position r _ (proj1 Hr) Hpos) as (Erem & Hlo & _).
    fold L in Erem, Hlo.
    rewrite <- (residue_class (2 ^ 32) L (Z.of_nat j) r)
      by (unfold is_uint32 in Hr; unfold L; lia).
    rewrite <- Erem; split; intros E; lia.
  - apply Z.div_le_lower_bound; lia.
Qed.

Lemma sample_position_share_witness :
  Z.to_nat (Z.rem 4294967295 36) = 3
  <-> exists k,
        (0 <= k < 2 ^ 32 / 36 + (if 3 <? 2 ^ 32 mod 36 then 1 else 0))%Z
        /\ 4294967295%Z = (3 + k * 36)%Z.
Proof.
  apply (proj1 (sample_position_share
                  Sample.digits_and_lowercase 3 4294967295
                  eq_refl ltac:(simpl; lia)
                  ltac:(unfold is_uint32; lia))).
Defined.

End Bias.
